(** * A shallow embedding of [switchcase.py]

    The Python module emulates a switch statement: a class body is the
    switch group, each attribute decorated with [@case(k=label)] becomes a
    [_Case] object, and [enable(switch, ref)] walks [switch.__dict__],
    calls every [_Case] with [ref] and uses the exceptions [Matched] and
    [NotMatchedError] as control flow.

    Model:
    - Python objects are [Value]s.  Plain functions are named ([VFun n]);
      their behaviour is given by an environment [funs] of pure Rocq
      functions (a body receives the positional arguments and either
      returns or raises).  A [_Case] object is [VCase function case].
    - Python [==] is structural equality on [Value] (ints, strings, None;
      functions by name, i.e. by identity).
    - The heap holds the classes, by name, each with its ordered
      [__dict__].  The class [Matched] lives there too: the assignment
      [Matched.msg = ref1] is an attribute write into its dictionary.
    - The store also records a trace of the function bodies invoked (the
      observable effect of a body, e.g. its [print] calls). *)

From Stdlib Require Import ZArith.
From stdpp Require Import base gmap strings list.

(** ** Python values and exceptions *)

Inductive Value : Type :=
| VNone
| VInt (z : Z)
| VStr (s : string)
| VFun (name : string)
| VCase (function : Value) (label : Value).

Global Instance Value_eq_dec : EqDecision Value.
Proof. solve_decision. Defined.

(** [a == b] *)
Definition py_eq (a b : Value) : bool := bool_decide (a = b).

(** [bool(v)]; [_Case] defines neither [__bool__] nor [__len__]. *)
Definition py_truthy (v : Value) : bool :=
  match v with
  | VNone => false
  | VInt z => negb (Z.eqb z 0)
  | VStr s => negb (bool_decide (s = ""%string))
  | VFun _ => true
  | VCase _ _ => true
  end.

Inductive Exn : Type :=
| NotMatchedError (ref : Value)
| Matched (ref1 : Value)
| TypeError
| AttributeError
| IndexError
| UserError (name : string).

Inductive Outcome (A : Type) : Type :=
| Ret (a : A)
| Raise (e : Exn).
Arguments Ret {A} a.
Arguments Raise {A} e.

(** ** Class dictionaries and the heap *)

(** An ordered [__dict__]: attribute name and object, in insertion order. *)
Abbreviation Dict := (list (string * Value)).

Fixpoint dict_get (d : Dict) (k : string) : option Value :=
  match d with
  | [] => None
  | (k', v) :: rest => if bool_decide (k = k') then Some v else dict_get rest k
  end.

(** [d[k] = v]: overwrite in place, or append a new key at the end. *)
Fixpoint dict_set (d : Dict) (k : string) (v : Value) : Dict :=
  match d with
  | [] => [(k, v)]
  | (k', v') :: rest =>
      if bool_decide (k = k') then (k', v) :: rest else (k', v') :: dict_set rest k v
  end.

Record Store : Type := mkStore {
  classes : gmap string Dict;
  trace : list string
}.

(** ** A state and exception monad *)

Definition M (A : Type) : Type := Store -> Outcome A * Store.

Definition ret {A} (a : A) : M A := fun st => (Ret a, st).
Definition raise {A} (e : Exn) : M A := fun st => (Raise e, st).
Definition bind {A B} (m : M A) (k : A -> M B) : M B :=
  fun st => match m st with
            | (Ret a, st') => k a st'
            | (Raise e, st') => (Raise e, st')
            end.

Notation "x <-- m ;; k" := (bind m (fun x => k))
  (at level 100, m at next level, right associativity).

(** [try: m] followed by the rest of the statement list [ok], with the
    [except] clauses [handler]; the handler re-raises what it does not
    catch.  Exceptions of [ok] are not caught. *)
Definition try_except {A B} (m : M A) (ok : A -> M B) (handler : Exn -> M B) : M B :=
  fun st => match m st with
            | (Ret a, st') => ok a st'
            | (Raise e, st') => handler e st'
            end.

(** [cls.attr = v] *)
Definition set_class_attr (cls attr : string) (v : Value) : M unit :=
  fun st =>
    (Ret tt, mkStore (<[cls := dict_set (default [] (classes st !! cls)) attr v]> (classes st))
                     (trace st)).

(** The value of [Matched.msg], if the attribute exists. *)
Definition matched_msg (st : Store) : option Value :=
  match classes st !! "Matched"%string with
  | Some d => dict_get d "msg"
  | None => None
  end.

(** Reading [Matched.msg]: [AttributeError] before the first assignment. *)
Definition get_matched_msg : M Value :=
  fun st => match matched_msg st with
            | Some v => (Ret v, st)
            | None => (Raise AttributeError, st)
            end.

(** [switch.__dict__] *)
Definition get_dict (switch : string) : M Dict :=
  fun st => match classes st !! switch with
            | Some d => (Ret d, st)
            | None => (Raise AttributeError, st)
            end.

Definition log_call (n : string) : M unit :=
  fun st => (Ret tt, mkStore (classes st) (trace st ++ [n])).

Definition lift {A} (o : Outcome A) : M A := fun st => (o, st).

(** [isinstance(obj, _Case)] *)
Definition is_case (v : Value) : bool :=
  match v with VCase _ _ => true | _ => false end.

(** ** The module [switchcase] *)

Section Switchcase.

(** The bodies of the plain Python functions of the program. *)
Variable funs : string -> option (list Value -> Outcome Value).

(** Calling an object with positional arguments.  A plain function runs
    its body; a [_Case] runs [_Case.__call__(self, ref, *args)]:
<<
        if ref == self.case:
            ref1 = self.function(ref, *args)
            Matched.msg = ref1
            raise Matched(ref1)
        else:
            raise NotMatchedError(ref)
>>
    Anything else is not callable. *)
Fixpoint call_value (f : Value) (args : list Value) : M Value :=
  match f with
  | VFun n =>
      match funs n with
      | Some body => _ <-- log_call n ;; lift (body args)
      | None => raise TypeError
      end
  | VCase function label =>
      match args with
      | ref :: rest =>
          if py_eq ref label then
            ref1 <-- call_value function (ref :: rest) ;;
            _ <-- set_class_attr "Matched" "msg" ref1 ;;
            raise (Matched ref1)
          else raise (NotMatchedError ref)
      | [] => raise TypeError
      end
  | _ => raise TypeError
  end.

(** The loop of [copyEnable]:
<<
    for thing in switch.__dict__:
        if isinstance(switch.__dict__[thing], _Case):
            try:
                switch.__dict__[thing](ref)
            except NotMatchedError:
                continue
            except Matched:
                return Matched.msg
>>
    [Some v] is a [return v] from inside the loop, [None] the end of the
    loop.  The dictionary is read once: it is written only right before a
    [return]. *)
Fixpoint copyEnable_loop (things : Dict) (ref : Value) : M (option Value) :=
  match things with
  | [] => ret None
  | (_, obj) :: rest =>
      if is_case obj then
        try_except (call_value obj [ref])
          (fun _ => copyEnable_loop rest ref)
          (fun e => match e with
                    | NotMatchedError _ => copyEnable_loop rest ref
                    | Matched _ => m <-- get_matched_msg ;; ret (Some m)
                    | e => raise e
                    end)
      else copyEnable_loop rest ref
  end.

(** [copyEnable(switch, ref)]; falling off the end returns [None]. *)
Definition copyEnable (switch : string) (ref : Value) : M Value :=
  d <-- get_dict switch ;;
  r <-- copyEnable_loop d ref ;;
  match r with
  | Some v => ret v
  | None => ret VNone
  end.

(** The loop of [enable] (the [except NotMatchedError] clause is [pass]). *)
Fixpoint enable_loop (things : Dict) (ref : Value) : M (option Value) :=
  match things with
  | [] => ret None
  | (_, obj) :: rest =>
      if is_case obj then
        try_except (call_value obj [ref])
          (fun _ => enable_loop rest ref)
          (fun e => match e with
                    | NotMatchedError _ => enable_loop rest ref
                    | Matched _ => m <-- get_matched_msg ;; ret (Some m)
                    | e => raise e
                    end)
      else enable_loop rest ref
  end.

(** [enable(switch, ref)]: after the loop, the statement
    [copyEnable(switch, ref="__default__")] discards its value and the
    function returns [None]. *)
Definition enable (switch : string) (ref : Value) : M Value :=
  d <-- get_dict switch ;;
  r <-- enable_loop d ref ;;
  match r with
  | Some v => ret v
  | None =>
      _ <-- copyEnable switch (VStr "__default__") ;;
      ret VNone
  end.

End Switchcase.

(** ** The decorator [case]

    [def case(function=None, **kwargs)]: the first positional argument, or
    the keyword [function], binds the parameter [function]; all other
    keywords go to [kwargs], in the order they were passed. *)

Inductive Decorator : Type :=
| DObj (v : Value)                              (* a [_Case] object *)
| DWrapper (kwargs : list (string * Value)).    (* the closure [wrapper] *)

Definition case (function : Value) (kwargs : list (string * Value)) : Decorator :=
  if py_truthy function then DObj (VCase function VNone) else DWrapper kwargs.

(** Python's binding of a call [case( *pos, **kws)] to the signature. *)
Definition call_case (pos : list Value) (kws : list (string * Value)) : Outcome Decorator :=
  match pos with
  | [] =>
      match dict_get kws "function" with
      | Some f => Ret (case f (filter (fun kv => kv.1 <> "function"%string) kws))
      | None => Ret (case VNone kws)
      end
  | [f] =>
      match dict_get kws "function" with
      | Some _ => Raise TypeError
      | None => Ret (case f kws)
      end
  | _ => Raise TypeError
  end.

(** Applying the decorator to the function [f] being defined:
    [wrapper(f)] is [_Case(f, list(kwargs.values())[0])]. *)
Definition decorate (funs : string -> option (list Value -> Outcome Value))
    (d : Decorator) (f : Value) : M Value :=
  match d with
  | DObj obj => call_value funs obj [f]
  | DWrapper kwargs =>
      match map snd kwargs with
      | v :: _ => ret (VCase f v)
      | [] => raise IndexError
      end
  end.

(** ** Summaries of runs, used by the proofs *)

(** The effect of a run on the store: body invocations appended to the
    trace, and possibly one assignment [Matched.msg = v]. *)
Record Eff : Type := mkEff {
  eff_trace : list string;
  eff_set : option Value
}.

Definition apply_eff (e : Eff) (st : Store) : Store :=
  let st1 := mkStore (classes st) (trace st ++ eff_trace e) in
  match eff_set e with
  | Some v => snd (set_class_attr "Matched" "msg" v st1)
  | None => st1
  end.

Definition is_signal (x : Exn) : bool :=
  match x with NotMatchedError _ | Matched _ => true | _ => false end.

(** An outcome that is a [Matched] or [NotMatchedError] exception. *)
Definition escaped_signal (o : Outcome Value) : bool :=
  match o with Raise x => is_signal x | Ret _ => false end.

(** How a loop of [enable] / [copyEnable] ends: it runs off the end, an
    exception escapes, it returns [Matched.msg] just assigned by the
    matching [_Case], or it returns [Matched.msg] after a body raised
    [Matched] itself (a read of whatever the attribute holds). *)
Inductive LoopRun : Type :=
| LDone (e : Eff)
| LFail (x : Exn) (e : Eff)
| LFresh (v : Value) (e : Eff)
| LStale (e : Eff).

Definition run_loop (k : LoopRun) : M (option Value) :=
  fun st =>
    match k with
    | LDone e => (Ret None, apply_eff e st)
    | LFail x e => (Raise x, apply_eff e st)
    | LFresh v e => (Ret (Some v), apply_eff e st)
    | LStale e =>
        let st' := apply_eff e st in
        match matched_msg st' with
        | Some m => (Ret (Some m), st')
        | None => (Raise AttributeError, st')
        end
    end.

Definition loop_wf (k : LoopRun) : Prop :=
  match k with
  | LDone e | LStale e => eff_set e = None
  | LFail x e => eff_set e = None /\ is_signal x = false
  | LFresh v e => eff_set e = Some v
  end.

(** [enable] once the dictionary is read: the main loop [k1], then the
    loop of [copyEnable] with the reference ["__default__"] ([k2]). *)
Definition run_enable (k1 k2 : LoopRun) : M Value :=
  fun st =>
    match run_loop k1 st with
    | (Ret (Some v), st') => (Ret v, st')
    | (Ret None, st') =>
        match run_loop k2 st' with
        | (Ret _, st'') => (Ret VNone, st'')
        | (Raise x, st'') => (Raise x, st'')
        end
    | (Raise x, st') => (Raise x, st')
    end.

(** No [_Case] of the dictionary has a label equal to [ref]. *)
Definition no_label_matches (d : Dict) (ref : Value) : bool :=
  forallb (fun kv => match kv.2 with VCase _ l => negb (py_eq ref l) | _ => true end) d.

(** Every [_Case] of the dictionary wraps a plain function of the program. *)
Definition handlers_callable (funs : string -> option (list Value -> Outcome Value))
    (d : Dict) : Prop :=
  Forall (fun kv => match kv.2 with
                    | VCase f _ => exists fn b, f = VFun fn /\ funs fn = Some b
                    | _ => True
                    end) d.

(** Every function body returns normally. *)
Definition bodies_total (funs : string -> option (list Value -> Outcome Value)) : Prop :=
  forall fn b args, funs fn = Some b -> exists v, b args = Ret v.

(** ** Concrete programs *)

(** The driver of [main.py], with its handlers declared through keyword
    labels ([@case(k=1)], [@case(k=2)], [@case(k="__default__")]) and
    bodies returning a marker each. *)
Definition main_funs (n : string) : option (list Value -> Outcome Value) :=
  if bool_decide (n = "case1"%string) then Some (fun _ => Ret (VStr "one"))
  else if bool_decide (n = "case2"%string) then Some (fun _ => Ret (VStr "two"))
  else if bool_decide (n = "__default__"%string) then Some (fun _ => Ret (VStr "other"))
  else None.

Definition mySwitch_dict : Dict :=
  [("__module__"%string, VStr "__main__");
   ("case1"%string, VCase (VFun "case1") (VInt 1));
   ("case2"%string, VCase (VFun "case2") (VInt 2));
   ("__default__"%string, VCase (VFun "__default__") (VStr "__default__"));
   ("__doc__"%string, VNone)].

(** The same group without its default handler. *)
Definition noDefault_dict : Dict :=
  [("__module__"%string, VStr "__main__");
   ("case1"%string, VCase (VFun "case1") (VInt 1));
   ("case2"%string, VCase (VFun "case2") (VInt 2));
   ("__doc__"%string, VNone)].

(** A group with a duplicate label: [first] and [second] both match [1]. *)
Definition dup_dict : Dict :=
  [("first"%string, VCase (VFun "case1") (VInt 1));
   ("second"%string, VCase (VFun "case2") (VInt 1));
   ("__default__"%string, VCase (VFun "__default__") (VStr "__default__"))].

Definition Matched_dict : Dict :=
  [("__module__"%string, VStr "switchcase"); ("__doc__"%string, VNone)].

Definition main_store : Store :=
  mkStore (<["mySwitch"%string := mySwitch_dict]>
            (<["noDefault"%string := noDefault_dict]>
              (<["dupSwitch"%string := dup_dict]>
                (<["Matched"%string := Matched_dict]> ∅)))) [].

(** The module-level definition of [switchcase.py]:
<<
    @case
    def _() -> None:
        return None
>>
    [_] takes no parameter; a call with arguments is a [TypeError]. *)
Definition underscore_body (args : list Value) : Outcome Value :=
  match args with
  | [] => Ret VNone
  | _ => Raise TypeError
  end.

(** Objects that cannot be called: [None], ints and strings. *)
Definition not_callable (f : Value) : bool :=
  match f with VNone | VInt _ | VStr _ => true | _ => false end.

(** Bodies with exceptional behaviour, beside those of [main_funs]. *)
Definition edge_funs (n : string) : option (list Value -> Outcome Value) :=
  if bool_decide (n = "raiser"%string) then Some (fun _ => Raise (UserError "ValueError"))
  else if bool_decide (n = "passer"%string) then Some (fun _ => Raise (NotMatchedError (VInt 0)))
  else if bool_decide (n = "signaller"%string) then Some (fun _ => Raise (Matched (VInt 7)))
  else if bool_decide (n = "_"%string) then Some underscore_body
  else main_funs n.

(** A group whose handlers raise: [h] a [ValueError], [p] a
    [NotMatchedError], [s] a bare [Matched]; [x] holds [case(5)], a
    [_Case] around the int [5] with label [None]. *)
Definition edge_dict : Dict :=
  [("__module__"%string, VStr "__main__");
   ("h"%string, VCase (VFun "raiser") (VInt 1));
   ("p"%string, VCase (VFun "passer") (VInt 2));
   ("s"%string, VCase (VFun "signaller") (VInt 3));
   ("x"%string, VCase (VInt 5) VNone);
   ("two"%string, VCase (VFun "case2") (VInt 2));
   ("__default__"%string, VCase (VFun "__default__") (VStr "__default__"))].

Definition edge_store : Store :=
  mkStore (<["edgeSwitch"%string := edge_dict]>
            (<["mySwitch"%string := mySwitch_dict]>
              (<["Matched"%string := Matched_dict]> ∅))) [].

(** A loop run preceded by the effect of skipped iterations. *)
Definition prepend_eff (t : list string) (e : Eff) : Eff :=
  mkEff (t ++ eff_trace e) (eff_set e).

Definition prepend_loop (t : list string) (k : LoopRun) : LoopRun :=
  match k with
  | LDone e => LDone (prepend_eff t e)
  | LFail x e => LFail x (prepend_eff t e)
  | LFresh v e => LFresh v (prepend_eff t e)
  | LStale e => LStale (prepend_eff t e)
  end.

(** ** Store lemmas *)

Lemma store_eta (st : Store) : mkStore (classes st) (trace st ++ []) = st.
Proof. destruct st; simpl; by rewrite app_nil_r. Qed.

Lemma apply_eff_nil (st : Store) : apply_eff (mkEff [] None) st = st.
Proof. apply store_eta. Qed.

Lemma dict_get_set_eq (d : Dict) k v : dict_get (dict_set d k v) k = Some v.
Proof.
  induction d as [|[k' v'] d IH]; simpl.
  - by rewrite bool_decide_eq_true_2.
  - case_bool_decide as Hk; simpl.
    + by rewrite bool_decide_eq_true_2.
    + rewrite bool_decide_eq_false_2 by done. exact IH.
Qed.

Lemma apply_eff_classes_ne e st (c : string) :
  c <> "Matched"%string -> classes (apply_eff e st) !! c = classes st !! c.
Proof.
  intros Hc. unfold apply_eff. destruct (eff_set e); simpl; [|done].
  by rewrite lookup_insert_ne.
Qed.

Lemma apply_eff_classes_none e st :
  eff_set e = None -> classes (apply_eff e st) = classes st.
Proof. intros He. unfold apply_eff. by rewrite He. Qed.

Lemma apply_eff_trace e st : trace (apply_eff e st) = trace st ++ eff_trace e.
Proof. unfold apply_eff. by destruct (eff_set e). Qed.

Lemma matched_msg_none e st :
  eff_set e = None -> matched_msg (apply_eff e st) = matched_msg st.
Proof. intros He. unfold matched_msg. by rewrite apply_eff_classes_none. Qed.

Lemma matched_msg_some e st v :
  eff_set e = Some v -> matched_msg (apply_eff e st) = Some v.
Proof.
  intros He. unfold matched_msg, apply_eff. rewrite He. simpl.
  rewrite lookup_insert_eq. apply dict_get_set_eq.
Qed.

Lemma apply_eff_app t1 t2 o st :
  apply_eff (mkEff t2 o) (apply_eff (mkEff t1 None) st) = apply_eff (mkEff (t1 ++ t2) o) st.
Proof. unfold apply_eff; simpl. by rewrite app_assoc. Qed.

Section Proofs.

Variable funs : string -> option (list Value -> Outcome Value).

(** ** Calls: the outcome does not depend on the store *)

Lemma call_value_eff (f : Value) :
  forall args, exists r e,
    (forall st, call_value funs f args st = (r, apply_eff e st)) /\
    (forall v, eff_set e = Some v -> r = Raise (Matched v)).
Proof.
  induction f as [| z | s | n | function IHf label _]; intros args.
  - exists (Raise TypeError), (mkEff [] None).
    split; [intros st; simpl; by rewrite apply_eff_nil | done].
  - exists (Raise TypeError), (mkEff [] None).
    split; [intros st; simpl; by rewrite apply_eff_nil | done].
  - exists (Raise TypeError), (mkEff [] None).
    split; [intros st; simpl; by rewrite apply_eff_nil | done].
  - simpl. destruct (funs n) as [body|].
    + exists (body args), (mkEff [n] None). split; [|done].
      intros st. reflexivity.
    + exists (Raise TypeError), (mkEff [] None).
      split; [intros st; by rewrite apply_eff_nil | done].
  - destruct args as [|ref rest].
    + exists (Raise TypeError), (mkEff [] None).
      split; [intros st; simpl; by rewrite apply_eff_nil | done].
    + simpl. destruct (py_eq ref label).
      * destruct (IHf (ref :: rest)) as (r0 & e0 & Hrun & Hset).
        destruct r0 as [v|x].
        -- exists (Raise (Matched v)), (mkEff (eff_trace e0) (Some v)).
           split; [|by intros w [= ->]].
           intros st. unfold bind. rewrite Hrun.
           destruct (eff_set e0) eqn:E0; [by specialize (Hset _ eq_refl)|].
           unfold apply_eff. rewrite E0. reflexivity.
        -- exists (Raise x), e0. split; [|exact Hset].
           intros st. unfold bind. by rewrite Hrun.
      * exists (Raise (NotMatchedError ref)), (mkEff [] None).
        split; [intros st; by rewrite apply_eff_nil | done].
Qed.

(** The two loops are the same loop. *)
Lemma copyEnable_loop_enable_loop (d : Dict) ref st :
  copyEnable_loop funs d ref st = enable_loop funs d ref st.
Proof.
  revert st. induction d as [|[n obj] d IH]; intros st; simpl; [done|].
  destruct (is_case obj); [|apply IH].
  unfold try_except. destruct (call_value funs obj [ref] st) as [[a|x] st'].
  - apply IH.
  - destruct x; try reflexivity; apply IH.
Qed.

Lemma run_loop_prepend t k st :
  run_loop (prepend_loop t k) st = run_loop k (apply_eff (mkEff t None) st).
Proof.
  destruct k as [[tr o]|x [tr o]|v [tr o]|[tr o]]; unfold prepend_loop, prepend_eff;
    simpl; by rewrite apply_eff_app.
Qed.

Lemma loop_wf_prepend t k : loop_wf (prepend_loop t k) <-> loop_wf k.
Proof. by destruct k. Qed.

(** ** The loops: each run is one of four kinds, fixed by the dictionary
    and the reference alone *)

Lemma enable_loop_run (d : Dict) ref :
  exists k, loop_wf k /\ forall st, enable_loop funs d ref st = run_loop k st.
Proof.
  induction d as [|[n obj] d IH]; simpl.
  - exists (LDone (mkEff [] None)). split; [done|].
    intros st. simpl. by rewrite apply_eff_nil.
  - destruct (is_case obj); [|exact IH].
    destruct IH as (k & Hwf & Hk).
    destruct (call_value_eff obj [ref]) as (r & e & Hrun & Hset).
    destruct e as [t o].
    assert (Hskip : o = None -> exists k' : LoopRun, loop_wf k' /\
              forall st, enable_loop funs d ref (apply_eff (mkEff t o) st) = run_loop k' st).
    { intros ->. exists (prepend_loop t k). split; [by apply loop_wf_prepend|].
      intros st. by rewrite run_loop_prepend, Hk. }
    destruct r as [a|x].
    + destruct o as [v|]; [by specialize (Hset v eq_refl)|].
      destruct (Hskip eq_refl) as (k' & Hwf' & Hk').
      exists k'. split; [done|]. intros st. unfold try_except. by rewrite Hrun, Hk'.
    + destruct x as [ref'|v| | | |u].
      * destruct o as [w|]; [by specialize (Hset w eq_refl)|].
        destruct (Hskip eq_refl) as (k' & Hwf' & Hk').
        exists k'. split; [done|]. intros st. unfold try_except. by rewrite Hrun, Hk'.
      * destruct o as [w|].
        -- specialize (Hset w eq_refl). injection Hset as ->.
           exists (LFresh w (mkEff t (Some w))). split; [done|].
           intros st. unfold try_except. rewrite Hrun. simpl.
           unfold bind, get_matched_msg.
           by rewrite (matched_msg_some (mkEff t (Some w)) st w).
        -- exists (LStale (mkEff t None)). split; [done|].
           intros st. unfold try_except. rewrite Hrun. unfold bind, get_matched_msg, run_loop. by destruct (matched_msg _).
      * destruct o as [w|]; [by specialize (Hset w eq_refl)|].
        exists (LFail TypeError (mkEff t None)). split; [done|].
        intros st. unfold try_except. by rewrite Hrun.
      * destruct o as [w|]; [by specialize (Hset w eq_refl)|].
        exists (LFail AttributeError (mkEff t None)). split; [done|].
        intros st. unfold try_except. by rewrite Hrun.
      * destruct o as [w|]; [by specialize (Hset w eq_refl)|].
        exists (LFail IndexError (mkEff t None)). split; [done|].
        intros st. unfold try_except. by rewrite Hrun.
      * destruct o as [w|]; [by specialize (Hset w eq_refl)|].
        exists (LFail (UserError u) (mkEff t None)). split; [done|].
        intros st. unfold try_except. by rewrite Hrun.
Qed.

(** ** [enable] in terms of the two loop summaries *)

Lemma enable_run (s : string) ref st (d : Dict) k1 k2 :
  classes st !! s = Some d -> loop_wf k1 ->
  (forall st0, enable_loop funs d ref st0 = run_loop k1 st0) ->
  (forall st0, enable_loop funs d (VStr "__default__") st0 = run_loop k2 st0) ->
  enable funs s ref st = run_enable k1 k2 st.
Proof.
  intros Hs W1 H1 H2. unfold enable, bind, get_dict. rewrite Hs, H1.
  unfold run_enable. destruct k1 as [e1|x e1|v e1|e1]; simpl; try reflexivity.
  - unfold copyEnable, bind, get_dict. simpl in W1.
    rewrite (apply_eff_classes_none e1 st W1), Hs, copyEnable_loop_enable_loop, H2.
    by destruct (run_loop k2 (apply_eff e1 st)) as [[[v|]|x] st''].
  - by destruct (matched_msg (apply_eff e1 st)).
Qed.

Lemma run_loop_classes_ne k st (c : string) :
  c <> "Matched"%string -> classes (snd (run_loop k st)) !! c = classes st !! c.
Proof.
  intros Hc. destruct k as [e|x e|v e|e]; simpl;
    [| | |destruct (matched_msg (apply_eff e st))]; simpl; by apply apply_eff_classes_ne.
Qed.

Lemma run_enable_classes_ne k1 k2 st (c : string) :
  c <> "Matched"%string -> classes (snd (run_enable k1 k2 st)) !! c = classes st !! c.
Proof.
  intros Hc. unfold run_enable.
  pose proof (run_loop_classes_ne k1 st c Hc) as E1.
  destruct (run_loop k1 st) as [[[v|]|x] st'] eqn:R1; simpl in *; try exact E1.
  pose proof (run_loop_classes_ne k2 st' c Hc) as E2.
  destruct (run_loop k2 st') as [[o|x] st''] eqn:R2; simpl in *; congruence.
Qed.

Lemma run_enable_no_signal k1 k2 st :
  loop_wf k1 -> loop_wf k2 -> escaped_signal (fst (run_enable k1 k2 st)) = false.
Proof.
  intros W1 W2. unfold run_enable.
  destruct k1 as [e1|x e1|v e1|e1]; simpl in W1; simpl.
  - destruct k2 as [e2|x e2|v e2|e2]; simpl in W2; simpl; try done.
    + by destruct W2 as [_ ->].
    + by destruct (matched_msg _).
  - by destruct W1 as [_ ->].
  - done.
  - by destruct (matched_msg _).
Qed.

(** Running [enable] a second time from the store the first run left. *)
Lemma run_enable_repeat k1 k2 st :
  loop_wf k1 -> loop_wf k2 ->
  fst (run_enable k1 k2 st) = fst (run_enable k1 k2 (snd (run_enable k1 k2 st))).
Proof.
  intros W1 W2. unfold run_enable.
  destruct k1 as [e1|x e1|v e1|e1]; simpl in W1; simpl; try done.
  - destruct k2 as [e2|x e2|v e2|e2]; simpl in W2; simpl; try done.
    rewrite !(matched_msg_none e2 _ W2), !(matched_msg_none e1 _ W1).
    destruct (matched_msg st) eqn:Em; simpl;
      rewrite !(matched_msg_none e2 _ W2), !(matched_msg_none e1 _ W1), Em; done.
  - rewrite !(matched_msg_none e1 _ W1).
    destruct (matched_msg st) eqn:Em; simpl;
      rewrite !(matched_msg_none e1 _ W1), Em; done.
Qed.

(** ** A [_Case] wrapping a plain function *)

Lemma call_case_fun fn b label ref args st :
  funs fn = Some b ->
  call_value funs (VCase (VFun fn) label) (ref :: args) st =
  if py_eq ref label then
    match b (ref :: args) with
    | Ret v => (Raise (Matched v), apply_eff (mkEff [fn] (Some v)) st)
    | Raise x => (Raise x, apply_eff (mkEff [fn] None) st)
    end
  else (Raise (NotMatchedError ref), st).
Proof.
  intros Hb. simpl. destruct (py_eq ref label); [|done].
  unfold bind, log_call, lift. rewrite Hb. simpl.
  by destruct (b (ref :: args)).
Qed.

Lemma call_case_nomatch f label ref st :
  py_eq ref label = false ->
  call_value funs (VCase f label) [ref] st = (Raise (NotMatchedError ref), st).
Proof. intros Hl. simpl. by rewrite Hl. Qed.

(** A loop over handlers none of which has the label [ref]. *)
Lemma enable_loop_no_match (d : Dict) ref st :
  no_label_matches d ref = true -> enable_loop funs d ref st = (Ret None, st).
Proof.
  induction d as [|[n obj] d IH]; simpl; [done|].
  intros Hm. apply andb_prop in Hm as [Hobj Hd]. simpl in Hobj.
  destruct obj as [| | | |f l]; try (by apply IH).
  apply negb_true_iff in Hobj.
  cbn [is_case]. unfold try_except. rewrite call_case_nomatch by exact Hobj. by apply IH.
Qed.

(** A loop that reaches, first among the handlers labelled [ref], a
    handler whose body returns [v]. *)
Lemma enable_loop_first_match (pre post : Dict) n fn lbl ref b v st :
  no_label_matches pre ref = true -> py_eq ref lbl = true ->
  funs fn = Some b -> b [ref] = Ret v ->
  enable_loop funs (pre ++ (n, VCase (VFun fn) lbl) :: post) ref st =
  (Ret (Some v), apply_eff (mkEff [fn] (Some v)) st).
Proof.
  intros Hpre Hl Hb Hv. induction pre as [|[n' obj] pre IH].
  - cbn [app enable_loop is_case]. unfold try_except.
    rewrite (call_case_fun fn b lbl ref [] st Hb), Hl, Hv.
    unfold bind, get_matched_msg. by rewrite (matched_msg_some (mkEff [fn] (Some v)) st v).
  - simpl in Hpre. apply andb_prop in Hpre as [Hobj Hd]. cbn [app enable_loop].
    simpl in Hobj. destruct obj as [| | | |f l]; try (by apply IH).
    apply negb_true_iff in Hobj.
    cbn [is_case]. unfold try_except. rewrite call_case_nomatch by exact Hobj. by apply IH.
Qed.

(** With total bodies and callable handlers, a loop returns normally;
    when it runs off the end, the store is untouched. *)
Lemma enable_loop_total (d : Dict) ref st :
  bodies_total funs -> handlers_callable funs d ->
  exists o st', enable_loop funs d ref st = (Ret o, st') /\ (o = None -> st' = st).
Proof.
  intros Htot. revert st. induction d as [|[n obj] d IH]; intros st Hd; simpl.
  - by exists None, st.
  - inversion Hd as [|? ? Hobj Hrest]; subst. simpl in Hobj.
    destruct obj as [| | | |f l]; try (by apply IH).
    destruct Hobj as (fn & b & -> & Hb).
    cbn [is_case]. unfold try_except. rewrite (call_case_fun fn b l ref [] st Hb).
    destruct (py_eq ref l).
    + destruct (Htot fn b [ref] Hb) as [v Hv]. rewrite Hv.
      unfold bind, get_matched_msg. rewrite (matched_msg_some (mkEff [fn] (Some v)) st v) by done.
      by eexists (Some v), _.
    + by apply IH.
Qed.

(** ** The claims *)

(** C1 (as the code behaves): when [ref] matches no label, [enable] runs
    the first handler labelled ["__default__"] exactly once, with the
    reference ["__default__"], and then returns [None]: the value of the
    default body is dropped. *)
Theorem enable_default_result_dropped (s : string) ref st (pre post : Dict) n fn b v :
  classes st !! s = Some (pre ++ (n, VCase (VFun fn) (VStr "__default__")) :: post) ->
  no_label_matches (pre ++ (n, VCase (VFun fn) (VStr "__default__")) :: post) ref = true ->
  no_label_matches pre (VStr "__default__") = true ->
  funs fn = Some b -> b [VStr "__default__"] = Ret v ->
  enable funs s ref st = (Ret VNone, apply_eff (mkEff [fn] (Some v)) st).
Proof.
  intros Hs Hno Hpre Hb Hv. unfold enable, bind, get_dict. rewrite Hs.
  rewrite enable_loop_no_match by exact Hno.
  cbv beta iota. unfold copyEnable, bind, get_dict. rewrite Hs, copyEnable_loop_enable_loop.
  rewrite (enable_loop_first_match pre post n fn _ _ b v st Hpre) by
    (done || by apply bool_decide_eq_true_2).
  reflexivity.
Qed.

(** C2: if exactly one handler has the label [ref] and its body returns
    [v] on [ref], [enable] returns [v], and the only body invoked is that
    handler's. *)
Theorem enable_unique_match (s : string) ref st (pre post : Dict) n fn lbl b v :
  classes st !! s = Some (pre ++ (n, VCase (VFun fn) lbl) :: post) ->
  no_label_matches pre ref = true -> no_label_matches post ref = true ->
  py_eq ref lbl = true -> funs fn = Some b -> b [ref] = Ret v ->
  fst (enable funs s ref st) = Ret v /\
  trace (snd (enable funs s ref st)) = trace st ++ [fn].
Proof.
  intros Hs Hpre _ Hl Hb Hv. unfold enable, bind, get_dict. rewrite Hs.
  rewrite (enable_loop_first_match pre post n fn lbl ref b v st Hpre Hl Hb Hv).
  simpl. split; [done|]. first [done | apply apply_eff_trace].
Qed.

(** C3 (amended): a group with no handler labelled ["__default__"],
    activated with a reference matching no label, raises nothing: [enable]
    returns [None] and leaves the store as it was (no body runs). *)
Theorem enable_no_default_returns_none (s : string) ref st (d : Dict) :
  classes st !! s = Some d ->
  no_label_matches d ref = true -> no_label_matches d (VStr "__default__") = true ->
  enable funs s ref st = (Ret VNone, st).
Proof.
  intros Hs Hno Hdef. unfold enable, bind, get_dict. rewrite Hs.
  rewrite enable_loop_no_match by exact Hno.
  cbv beta iota. unfold copyEnable, bind, get_dict. rewrite Hs, copyEnable_loop_enable_loop.
  by rewrite enable_loop_no_match by exact Hdef.
Qed.

(** C4: a [_Case] called with a context equal to its label runs the wrapped
    function on the arguments and raises [Matched] with its result (also
    stored in [Matched.msg]); with any other context it raises
    [NotMatchedError] with the context and changes nothing. *)
Theorem case_call_signals fn b label ref args st :
  funs fn = Some b ->
  (py_eq ref label = true -> forall v, b (ref :: args) = Ret v ->
     exists st', call_value funs (VCase (VFun fn) label) (ref :: args) st =
                 (Raise (Matched v), st') /\
                 matched_msg st' = Some v /\ trace st' = trace st ++ [fn]) /\
  (py_eq ref label = false ->
     call_value funs (VCase (VFun fn) label) (ref :: args) st =
     (Raise (NotMatchedError ref), st)).
Proof.
  intros Hb. rewrite (call_case_fun fn b label ref args st Hb). split.
  - intros Hl v Hv. rewrite Hl, Hv. eexists. split; [done|]. split.
    + by apply matched_msg_some.
    + first [done | apply apply_eff_trace].
  - intros Hl. by rewrite Hl.
Qed.

(** C5: with duplicate labels, [enable] returns the value of the
    earliest handler whose label equals [ref] and stops there: the only
    effect on the store is that handler's body call and the assignment of
    [Matched.msg]; no later handler (duplicates included) and no default
    runs. *)
Theorem enable_first_match_wins (s : string) ref st (pre post : Dict) n fn lbl b v :
  classes st !! s = Some (pre ++ (n, VCase (VFun fn) lbl) :: post) ->
  no_label_matches pre ref = true -> py_eq ref lbl = true ->
  funs fn = Some b -> b [ref] = Ret v ->
  enable funs s ref st = (Ret v, apply_eff (mkEff [fn] (Some v)) st).
Proof.
  intros Hs Hpre Hl Hb Hv. unfold enable, bind, get_dict. rewrite Hs.
  by rewrite (enable_loop_first_match pre post n fn lbl ref b v st Hpre Hl Hb Hv).
Qed.

(** Keyword labels: any keyword other than [function] gives the label. *)
Lemma case_keyword_label (kws : list (string * Value)) f st :
  kws <> [] -> dict_get kws "function" = None ->
  exists dec, call_case [] kws = Ret dec /\
    decorate funs dec f st = (Ret (VCase f (hd VNone (map snd kws))), st).
Proof.
  intros Hne Hf. unfold call_case. rewrite Hf. eexists. split; [done|].
  unfold case. simpl. destruct kws as [|[k v] kws]; [done|]. reflexivity.
Qed.

(** C7: [Matched] and [NotMatchedError] never escape [enable]; when every
    body returns normally and every handler wraps a function of the
    program, [enable] itself returns normally. *)
Theorem enable_signals_contained (s : string) ref st :
  escaped_signal (fst (enable funs s ref st)) = false /\
  (bodies_total funs -> forall d, classes st !! s = Some d -> handlers_callable funs d ->
   exists v, fst (enable funs s ref st) = Ret v).
Proof.
  split.
  - destruct (classes st !! s) as [d|] eqn:Hs.
    + destruct (enable_loop_run d ref) as (k1 & W1 & H1).
      destruct (enable_loop_run d (VStr "__default__")) as (k2 & W2 & H2).
      rewrite (enable_run s ref st d k1 k2 Hs W1 H1 H2).
      by apply run_enable_no_signal.
    + unfold enable, bind, get_dict. by rewrite Hs.
  - intros Htot d Hs Hd. unfold enable, bind, get_dict. rewrite Hs.
    destruct (enable_loop_total d ref st Htot Hd) as (o & st' & E & Hnone).
    rewrite E. destruct o as [v|]; [by exists v|].
    rewrite (Hnone eq_refl).
    cbv beta iota. unfold copyEnable, bind, get_dict. rewrite Hs, copyEnable_loop_enable_loop.
    destruct (enable_loop_total d (VStr "__default__") st Htot Hd) as (o2 & st2 & E2 & _).
    rewrite E2. destruct o2; by eexists.
Qed.

(** C8: activating the same group twice with the same reference gives the
    same outcome (bodies are pure functions of their arguments). *)
Theorem enable_deterministic (s : string) ref st :
  s <> "Matched"%string ->
  fst (enable funs s ref st) = fst (enable funs s ref (snd (enable funs s ref st))).
Proof.
  intros Hsm. destruct (classes st !! s) as [d|] eqn:Hs.
  - destruct (enable_loop_run d ref) as (k1 & W1 & H1).
    destruct (enable_loop_run d (VStr "__default__")) as (k2 & W2 & H2).
    rewrite (enable_run s ref st d k1 k2 Hs W1 H1 H2).
    rewrite (enable_run s ref _ d k1 k2); try done.
    + by apply run_enable_repeat.
    + by rewrite run_enable_classes_ne.
  - unfold enable, bind, get_dict. rewrite Hs. simpl. by rewrite Hs.
Qed.

(** C9: [enable] writes no class other than [Matched]: every switch
    group's dictionary (handlers, labels, functions, other attributes) is
    the same after the activation. *)
Theorem enable_frame (s : string) ref st (c : string) :
  c <> "Matched"%string ->
  classes (snd (enable funs s ref st)) !! c = classes st !! c.
Proof.
  intros Hc. destruct (classes st !! s) as [d|] eqn:Hs.
  - destruct (enable_loop_run d ref) as (k1 & W1 & H1).
    destruct (enable_loop_run d (VStr "__default__")) as (k2 & W2 & H2).
    rewrite (enable_run s ref st d k1 k2 Hs W1 H1 H2).
    by apply run_enable_classes_ne.
  - unfold enable, bind, get_dict. by rewrite Hs.
Qed.

(** C10: a positional label [v] (truthy) binds the parameter [function]:
    [case(v)] is the object [_Case(v)] with label [None], and decorating a
    function [f] with it calls it with [f], which raises
    [NotMatchedError(f)] at class-definition time. *)
Theorem positional_label_rejected v n st :
  py_truthy v = true ->
  call_case [v] [] = Ret (DObj (VCase v VNone)) /\
  decorate funs (DObj (VCase v VNone)) (VFun n) st = (Raise (NotMatchedError (VFun n)), st).
Proof.
  intros Hv. split.
  - unfold call_case, case. simpl. by rewrite Hv.
  - reflexivity.
Qed.

End Proofs.

(** ** Concrete runs *)

Lemma main_bodies_total : bodies_total main_funs.
Proof.
  intros fn b args H. unfold main_funs in H.
  repeat case_bool_decide; simplify_eq; eauto.
Qed.

Lemma mySwitch_callable : handlers_callable main_funs mySwitch_dict.
Proof.
  repeat constructor; simpl; eauto.
Qed.

(** C1 at main.py's group with reference [99]: the default body runs
    once and its value ["other"] is dropped. *)
Lemma enable_default_result_dropped_witness :
  enable main_funs "mySwitch" (VInt 99) main_store =
  (Ret VNone, apply_eff (mkEff ["__default__"%string] (Some (VStr "other"))) main_store).
Proof.
  apply (enable_default_result_dropped main_funs "mySwitch" (VInt 99) main_store
           [("__module__"%string, VStr "__main__");
            ("case1"%string, VCase (VFun "case1") (VInt 1));
            ("case2"%string, VCase (VFun "case2") (VInt 2))]
           [("__doc__"%string, VNone)] "__default__" "__default__"
           (fun _ => Ret (VStr "other")) (VStr "other"));
    reflexivity.
Defined.

Lemma enable_unique_match_witness :
  fst (enable main_funs "mySwitch" (VInt 2) main_store) = Ret (VStr "two") /\
  trace (snd (enable main_funs "mySwitch" (VInt 2) main_store)) = ["case2"%string].
Proof.
  apply (enable_unique_match main_funs "mySwitch" (VInt 2) main_store
           [("__module__"%string, VStr "__main__");
            ("case1"%string, VCase (VFun "case1") (VInt 1))]
           [("__default__"%string, VCase (VFun "__default__") (VStr "__default__"));
            ("__doc__"%string, VNone)] "case2" "case2" (VInt 2)
           (fun _ => Ret (VStr "two")) (VStr "two"));
    reflexivity.
Defined.

Lemma enable_no_default_returns_none_witness :
  enable main_funs "noDefault" (VInt 99) main_store = (Ret VNone, main_store).
Proof.
  apply (enable_no_default_returns_none main_funs "noDefault" (VInt 99) main_store
           noDefault_dict); reflexivity.
Defined.

(** C3 fails: the group without a default, activated with [99], returns
    [None] instead of raising. *)
Lemma enable_no_default_no_error :
  fst (enable main_funs "noDefault" (VInt 99) main_store) = Ret VNone.
Proof. vm_compute. reflexivity. Qed.

Lemma case_call_signals_witness :
  (exists st', call_value main_funs (VCase (VFun "case1") (VInt 1)) [VInt 1] main_store =
               (Raise (Matched (VStr "one")), st') /\
               matched_msg st' = Some (VStr "one") /\
               trace st' = trace main_store ++ ["case1"%string]) /\
  call_value main_funs (VCase (VFun "case1") (VInt 1)) [VInt 5] main_store =
  (Raise (NotMatchedError (VInt 5)), main_store).
Proof.
  split.
  - apply (proj1 (case_call_signals main_funs "case1" (fun _ => Ret (VStr "one"))
                    (VInt 1) (VInt 1) [] main_store eq_refl)); reflexivity.
  - apply (proj2 (case_call_signals main_funs "case1" (fun _ => Ret (VStr "one"))
                    (VInt 1) (VInt 5) [] main_store eq_refl)); reflexivity.
Defined.

Lemma enable_first_match_wins_witness :
  enable main_funs "dupSwitch" (VInt 1) main_store =
  (Ret (VStr "one"), apply_eff (mkEff ["case1"%string] (Some (VStr "one"))) main_store).
Proof.
  apply (enable_first_match_wins main_funs "dupSwitch" (VInt 1) main_store []
           [("second"%string, VCase (VFun "case2") (VInt 1));
            ("__default__"%string, VCase (VFun "__default__") (VStr "__default__"))]
           "first" "case1" (VInt 1) (fun _ => Ret (VStr "one")) (VStr "one"));
    reflexivity.
Defined.

(** C6 fails for the keyword [function]: [case(function=1)] binds the
    parameter, yields [_Case(1)] with label [None], and decorating [h]
    with it raises [NotMatchedError(h)]. *)
Lemma case_keyword_named_function :
  call_case [] [("function"%string, VInt 1)] = Ret (DObj (VCase (VInt 1) VNone)) /\
  decorate main_funs (DObj (VCase (VInt 1) VNone)) (VFun "h") main_store =
  (Raise (NotMatchedError (VFun "h")), main_store).
Proof. split; reflexivity. Qed.

Lemma enable_signals_contained_witness :
  escaped_signal (fst (enable main_funs "mySwitch" (VInt 1) main_store)) = false /\
  exists v, fst (enable main_funs "mySwitch" (VInt 1) main_store) = Ret v.
Proof.
  destruct (enable_signals_contained main_funs "mySwitch" (VInt 1) main_store) as [H1 H2].
  split; [exact H1|].
  apply (H2 main_bodies_total mySwitch_dict); [reflexivity | exact mySwitch_callable].
Defined.

Lemma enable_deterministic_witness :
  fst (enable main_funs "mySwitch" (VInt 99) main_store) =
  fst (enable main_funs "mySwitch" (VInt 99)
         (snd (enable main_funs "mySwitch" (VInt 99) main_store))).
Proof.
  apply (enable_deterministic main_funs "mySwitch" (VInt 99) main_store).
  discriminate.
Defined.

Lemma enable_frame_witness :
  classes (snd (enable main_funs "mySwitch" (VInt 1) main_store)) !! "mySwitch"%string =
  Some mySwitch_dict.
Proof.
  rewrite (enable_frame main_funs "mySwitch" (VInt 1) main_store "mySwitch"); [|discriminate].
  reflexivity.
Defined.

(** main.py's [@case(1)] on [case1]. *)
Lemma positional_label_rejected_witness :
  call_case [VInt 1] [] = Ret (DObj (VCase (VInt 1) VNone)) /\
  decorate main_funs (DObj (VCase (VInt 1) VNone)) (VFun "case1") main_store =
  (Raise (NotMatchedError (VFun "case1")), main_store).
Proof.
  apply (positional_label_rejected main_funs (VInt 1) "case1" main_store).
  reflexivity.
Defined.

(** ** Further properties of [switchcase.py] *)

Section Extras.

Variable funs : string -> option (list Value -> Outcome Value).

(** Handlers whose label differs from [ref] are passed over without effect. *)
Lemma enable_loop_skip_prefix (pre rest : Dict) ref st :
  no_label_matches pre ref = true ->
  enable_loop funs (pre ++ rest) ref st = enable_loop funs rest ref st.
Proof.
  induction pre as [|[n obj] pre IH]; intros Hpre; [done|].
  simpl in Hpre. apply andb_prop in Hpre as [Hobj Hd]. cbn [app enable_loop].
  destruct obj as [| | | |f l]; try (by apply IH).
  apply negb_true_iff in Hobj.
  cbn [is_case]. unfold try_except. rewrite call_case_nomatch by exact Hobj. by apply IH.
Qed.

(** [@case] without a truthy positional argument (as [@case(k=l)],
    [@case()], [@case(None)] or [@case(0, k=l)]): the decorator is the
    closure [wrapper], which labels the decorated function with the first
    keyword's value, or raises [IndexError] when no keyword was given. *)
Theorem case_wrapper_label (pos : list Value) (kws : list (string * Value)) f st :
  (pos = [] \/ exists v, pos = [v] /\ py_truthy v = false) ->
  dict_get kws "function" = None ->
  call_case pos kws = Ret (DWrapper kws) /\
  decorate funs (DWrapper kws) f st =
  match kws with
  | [] => (Raise IndexError, st)
  | (_, l) :: _ => (Ret (VCase f l), st)
  end.
Proof.
  intros Hpos Hf. split.
  - destruct Hpos as [->|(v & -> & Hv)]; unfold call_case; rewrite Hf; unfold case.
    + reflexivity.
    + by rewrite Hv.
  - by destruct kws as [|[k l] kws].
Qed.

(** Decorating then calling: the [_Case] made by [@case(k=l)] from the
    function [fn], called with [l], runs [fn] and raises [Matched] with its
    value, which is also left in [Matched.msg]; called with anything else
    it raises [NotMatchedError]. *)
Theorem keyword_case_roundtrip (k : string) l (kws : list (string * Value)) fn b ref args st :
  dict_get ((k, l) :: kws) "function" = None -> funs fn = Some b ->
  exists obj,
    decorate funs (DWrapper ((k, l) :: kws)) (VFun fn) st = (Ret obj, st) /\
    call_case [] ((k, l) :: kws) = Ret (DWrapper ((k, l) :: kws)) /\
    (forall v, b (l :: args) = Ret v ->
       exists st', call_value funs obj (l :: args) st = (Raise (Matched v), st') /\
                   matched_msg st' = Some v) /\
    (ref <> l -> call_value funs obj (ref :: args) st = (Raise (NotMatchedError ref), st)).
Proof.
  intros Hf Hb. exists (VCase (VFun fn) l). split; [done|]. split.
  { unfold call_case. rewrite Hf. reflexivity. }
  split.
  - intros v Hv. rewrite (call_case_fun funs fn b l l args st Hb).
    unfold py_eq. rewrite bool_decide_eq_true_2 by done. rewrite Hv.
    eexists. split; [done|]. by apply matched_msg_some.
  - intros Hne. rewrite (call_case_fun funs fn b l ref args st Hb).
    unfold py_eq. by rewrite bool_decide_eq_false_2.
Qed.

(** Attributes of the switch class that are not [_Case] objects (such as
    [__module__], [__doc__] or plain data) never influence the loop. *)
Theorem enable_loop_ignores_attributes (d : Dict) ref st :
  enable_loop funs d ref st = enable_loop funs (filter (fun kv => is_case kv.2 = true) d) ref st.
Proof.
  revert st. induction d as [|[n obj] d IH]; intros st; [done|].
  rewrite filter_cons. simpl.
  destruct (is_case obj) eqn:Ec; simpl.
  - rewrite ?Ec. unfold try_except. destruct (call_value funs obj [ref] st) as [[a|x] st'].
    + apply IH.
    + destruct x; try reflexivity; apply IH.
  - apply IH.
Qed.

(** [copyEnable(switch, ref)] called directly returns the value of the
    first handler labelled [ref] (where [enable] drops the default's). *)
Theorem copyEnable_first_match (s : string) ref st (pre post : Dict) n fn lbl b v :
  classes st !! s = Some (pre ++ (n, VCase (VFun fn) lbl) :: post) ->
  no_label_matches pre ref = true -> py_eq ref lbl = true ->
  funs fn = Some b -> b [ref] = Ret v ->
  copyEnable funs s ref st = (Ret v, apply_eff (mkEff [fn] (Some v)) st).
Proof.
  intros Hs Hpre Hl Hb Hv. unfold copyEnable, bind, get_dict. rewrite Hs.
  rewrite copyEnable_loop_enable_loop.
  by rewrite (enable_loop_first_match funs pre post n fn lbl ref b v st Hpre Hl Hb Hv).
Qed.

(** [copyEnable] with a reference no handler has as label returns [None]
    and changes nothing. *)
Theorem copyEnable_no_match (s : string) ref st (d : Dict) :
  classes st !! s = Some d -> no_label_matches d ref = true ->
  copyEnable funs s ref st = (Ret VNone, st).
Proof.
  intros Hs Hno. unfold copyEnable, bind, get_dict. rewrite Hs.
  rewrite copyEnable_loop_enable_loop. by rewrite enable_loop_no_match.
Qed.

(** When no label equals [ref], [enable] does exactly what
    [copyEnable(switch, "__default__")] does to the store, raises what it
    raises, and otherwise returns [None]. *)
Theorem enable_falls_back_to_copyEnable (s : string) ref st (d : Dict) :
  classes st !! s = Some d -> no_label_matches d ref = true ->
  enable funs s ref st =
  match copyEnable funs s (VStr "__default__") st with
  | (Ret _, st') => (Ret VNone, st')
  | (Raise x, st') => (Raise x, st')
  end.
Proof.
  intros Hs Hno. unfold enable at 1, bind at 1 2, get_dict at 1. rewrite Hs.
  rewrite enable_loop_no_match by exact Hno. cbv beta iota.
  unfold bind at 1. by destruct (copyEnable funs s (VStr "__default__") st) as [[a|x] st'].
Qed.

(** A matching handler whose body itself raises [NotMatchedError] is
    treated as not matching: the loop goes on with the next attributes. *)
Theorem body_notmatched_falls_through (pre post : Dict) n fn lbl ref b w st :
  no_label_matches pre ref = true -> py_eq ref lbl = true ->
  funs fn = Some b -> b [ref] = Raise (NotMatchedError w) ->
  enable_loop funs (pre ++ (n, VCase (VFun fn) lbl) :: post) ref st =
  enable_loop funs post ref (apply_eff (mkEff [fn] None) st).
Proof.
  intros Hpre Hl Hb Hw. rewrite enable_loop_skip_prefix by exact Hpre.
  cbn [enable_loop is_case]. unfold try_except.
  rewrite (call_case_fun funs fn b lbl ref [] st Hb), Hl, Hw. reflexivity.
Qed.

(** Any other exception of the matching handler's body leaves [enable]
    at once: no later handler and no default runs. *)
Theorem body_error_propagates (s : string) ref st (pre post : Dict) n fn lbl b x :
  classes st !! s = Some (pre ++ (n, VCase (VFun fn) lbl) :: post) ->
  no_label_matches pre ref = true -> py_eq ref lbl = true ->
  funs fn = Some b -> b [ref] = Raise x -> is_signal x = false ->
  enable funs s ref st = (Raise x, apply_eff (mkEff [fn] None) st).
Proof.
  intros Hs Hpre Hl Hb Hx Hsig. unfold enable, bind, get_dict. rewrite Hs.
  rewrite enable_loop_skip_prefix by exact Hpre.
  cbn [enable_loop is_case]. unfold try_except.
  rewrite (call_case_fun funs fn b lbl ref [] st Hb), Hl, Hx.
  by destruct x.
Qed.

(** A body that raises [Matched] itself (without assigning
    [Matched.msg]) makes [enable] return whatever [Matched.msg] held
    before the call, or raise [AttributeError] if it was never assigned;
    the value carried by the exception is ignored. *)
Theorem body_raised_matched_reads_msg (s : string) ref st (pre post : Dict) n fn lbl b w :
  classes st !! s = Some (pre ++ (n, VCase (VFun fn) lbl) :: post) ->
  no_label_matches pre ref = true -> py_eq ref lbl = true ->
  funs fn = Some b -> b [ref] = Raise (Matched w) ->
  enable funs s ref st =
  (match matched_msg st with Some m => Ret m | None => Raise AttributeError end,
   apply_eff (mkEff [fn] None) st).
Proof.
  intros Hs Hpre Hl Hb Hw. unfold enable, bind, get_dict. rewrite Hs.
  rewrite enable_loop_skip_prefix by exact Hpre.
  cbn [enable_loop is_case]. unfold try_except.
  rewrite (call_case_fun funs fn b lbl ref [] st Hb), Hl, Hw.
  unfold bind, get_matched_msg.
  rewrite (matched_msg_none (mkEff [fn] None) st eq_refl).
  by destruct (matched_msg st).
Qed.

(** After a successful match the result stays in the class attribute
    [Matched.msg], shared by all switches, once [enable] has returned. *)
Theorem enable_leaves_result_in_msg (s : string) ref st (pre post : Dict) n fn lbl b v :
  classes st !! s = Some (pre ++ (n, VCase (VFun fn) lbl) :: post) ->
  no_label_matches pre ref = true -> py_eq ref lbl = true ->
  funs fn = Some b -> b [ref] = Ret v ->
  matched_msg (snd (enable funs s ref st)) = Some v.
Proof.
  intros Hs Hpre Hl Hb Hv. unfold enable, bind, get_dict. rewrite Hs.
  rewrite (enable_loop_first_match funs pre post n fn lbl ref b v st Hpre Hl Hb Hv).
  simpl. by apply matched_msg_some.
Qed.

(** A [_Case] around an object that cannot be called (what
    [x = case(5)] stores: [_Case(5)] with label [None]) makes [enable]
    raise [TypeError] as soon as its label matches. *)
Theorem noncallable_handler_type_error (s : string) ref st (pre post : Dict) n f lbl :
  classes st !! s = Some (pre ++ (n, VCase f lbl) :: post) ->
  no_label_matches pre ref = true -> py_eq ref lbl = true ->
  not_callable f = true ->
  enable funs s ref st = (Raise TypeError, st).
Proof.
  intros Hs Hpre Hl Hf. unfold enable, bind, get_dict. rewrite Hs.
  rewrite enable_loop_skip_prefix by exact Hpre.
  cbn [enable_loop is_case]. unfold try_except. simpl. rewrite Hl.
  by destruct f.
Qed.

(** The module-level [_] is [_Case(_)] with label [None]; calling it
    always raises: [NotMatchedError] for a context other than [None], and
    [TypeError] for [None], as [_] takes no parameter. *)
Theorem underscore_case_unusable ref (args : list Value) st :
  funs "_" = Some underscore_body ->
  call_case [VFun "_"] [] = Ret (DObj (VCase (VFun "_") VNone)) /\
  fst (call_value funs (VCase (VFun "_") VNone) (ref :: args) st) =
  Raise (if py_eq ref VNone then TypeError else NotMatchedError ref).
Proof.
  intros Hb. split; [reflexivity|].
  rewrite (call_case_fun funs "_" underscore_body VNone ref args st Hb).
  by destruct (py_eq ref VNone).
Qed.

(** The bodies one loop runs belong to handlers labelled [ref]. *)
Lemma enable_loop_trace (d : Dict) ref st :
  handlers_callable funs d ->
  exists t, trace (snd (enable_loop funs d ref st)) = trace st ++ t /\
            Forall (fun fn => exists n, In (n, VCase (VFun fn) ref) d) t.
Proof.
  intros Hd. revert st. induction d as [|[n obj] d IH]; intros st.
  { exists []. simpl. by rewrite app_nil_r. }
  inversion Hd as [|? ? Hobj Hrest]; subst. simpl in Hobj.
  assert (Hw : forall t, Forall (fun fn => exists n', In (n', VCase (VFun fn) ref) d) t ->
                         Forall (fun fn => exists n', In (n', VCase (VFun fn) ref) ((n, obj) :: d)) t).
  { intros t Ht. eapply Forall_impl; [exact Ht|]. intros fn [n' Hin]. exists n'. by right. }
  destruct obj as [| | | |f l];
    try (destruct (IH Hrest st) as (t & Ht & Hf); exists t; split; [exact Ht | by apply Hw]).
  destruct Hobj as (fn & b & -> & Hb).
  cbn [enable_loop is_case]. unfold try_except.
  rewrite (call_case_fun funs fn b l ref [] st Hb).
  destruct (py_eq ref l) eqn:Hl.
  2: { destruct (IH Hrest st) as (t & Ht & Hf). exists t. split; [exact Ht | by apply Hw]. }
  apply bool_decide_eq_true_1 in Hl. subst l.
  assert (Hhere : Forall (fun fn' => exists n', In (n', VCase (VFun fn') ref) ((n, VCase (VFun fn) ref) :: d)) [fn]).
  { constructor; [exists n; by left | constructor]. }
  destruct (b [ref]) as [v|x].
  - exists [fn]. unfold bind, get_matched_msg.
    rewrite (matched_msg_some (mkEff [fn] (Some v)) st v eq_refl).
    split; [apply apply_eff_trace | exact Hhere].
  - destruct x as [w|w| | | |u];
      try (exists [fn]; split; [apply apply_eff_trace | exact Hhere]).
    + destruct (IH Hrest (apply_eff (mkEff [fn] None) st)) as (t & Ht & Hf).
      exists (fn :: t). split.
      * rewrite Ht, apply_eff_trace. simpl. by rewrite <- app_assoc.
      * constructor; [exists n; by left | by apply Hw].
    + exists [fn]. unfold bind, get_matched_msg.
      destruct (matched_msg (apply_eff (mkEff [fn] None) st));
        (split; [apply apply_eff_trace | exact Hhere]).
Qed.

(** A loop that runs off the end leaves the classes as they were. *)
Lemma enable_loop_done_classes (d : Dict) ref st st' :
  enable_loop funs d ref st = (Ret None, st') -> classes st' = classes st.
Proof.
  destruct (enable_loop_run funs d ref) as (k & W & H). rewrite H.
  destruct k as [e|x e|v e|e]; simpl; try discriminate.
  - intros [= <-]. by apply apply_eff_classes_none.
  - by destruct (matched_msg (apply_eff e st)).
Qed.

(** [enable] never runs the body of a handler whose label is neither the
    reference nor ["__default__"]. *)
Theorem enable_runs_only_matching_bodies (s : string) ref st (d : Dict) :
  classes st !! s = Some d -> handlers_callable funs d ->
  exists t, trace (snd (enable funs s ref st)) = trace st ++ t /\
    Forall (fun fn => exists n, In (n, VCase (VFun fn) ref) d \/
                                In (n, VCase (VFun fn) (VStr "__default__")) d) t.
Proof.
  intros Hs Hd. unfold enable, bind, get_dict. rewrite Hs.
  destruct (enable_loop_trace d ref st Hd) as (t1 & Ht1 & Hf1).
  assert (Hf1' : Forall (fun fn => exists n, In (n, VCase (VFun fn) ref) d \/
                           In (n, VCase (VFun fn) (VStr "__default__")) d) t1).
  { eapply Forall_impl; [exact Hf1|]. intros fn [n Hn]. exists n. by left. }
  destruct (enable_loop funs d ref st) as [[[v|]|x] st1] eqn:E1; simpl in Ht1.
  - exists t1. by split.
  - pose proof (enable_loop_done_classes d ref st st1 E1) as Hc.
    unfold copyEnable, bind, get_dict. rewrite Hc, Hs, copyEnable_loop_enable_loop.
    destruct (enable_loop_trace d (VStr "__default__") st1 Hd) as (t2 & Ht2 & Hf2).
    exists (t1 ++ t2). split.
    + destruct (enable_loop funs d (VStr "__default__") st1) as [[[w|]|x] st2];
        simpl in *; rewrite Ht2, Ht1; by rewrite app_assoc.
    + apply Forall_app. split; [exact Hf1'|].
      eapply Forall_impl; [exact Hf2|]. intros fn [n Hn]. exists n. by right.
  - exists t1. by split.
Qed.

End Extras.

(** ** Concrete runs of the further properties *)

(** [@case(0, k=5)] labels with [5]. *)
Lemma case_wrapper_label_witness :
  call_case [VInt 0] [("k"%string, VInt 5)] = Ret (DWrapper [("k"%string, VInt 5)]) /\
  decorate edge_funs (DWrapper [("k"%string, VInt 5)]) (VFun "h") edge_store =
  (Ret (VCase (VFun "h") (VInt 5)), edge_store).
Proof.
  apply (case_wrapper_label edge_funs [VInt 0] [("k"%string, VInt 5)] (VFun "h") edge_store).
  - right. exists (VInt 0). split; reflexivity.
  - reflexivity.
Defined.

Lemma keyword_case_roundtrip_witness :
  exists obj,
    decorate main_funs (DWrapper [("k"%string, VInt 2)]) (VFun "case2") main_store =
      (Ret obj, main_store) /\
    call_case [] [("k"%string, VInt 2)] = Ret (DWrapper [("k"%string, VInt 2)]) /\
    (forall v, (fun _ : list Value => Ret (VStr "two")) [VInt 2] = Ret v ->
       exists st', call_value main_funs obj [VInt 2] main_store = (Raise (Matched v), st') /\
                   matched_msg st' = Some v) /\
    (VInt 3 <> VInt 2 ->
       call_value main_funs obj [VInt 3] main_store = (Raise (NotMatchedError (VInt 3)), main_store)).
Proof.
  apply (keyword_case_roundtrip main_funs "k" (VInt 2) [] "case2"
           (fun _ => Ret (VStr "two")) (VInt 3) [] main_store); reflexivity.
Defined.

(** Called directly with ["__default__"], [copyEnable] returns ["other"]. *)
Lemma copyEnable_first_match_witness :
  copyEnable main_funs "mySwitch" (VStr "__default__") main_store =
  (Ret (VStr "other"), apply_eff (mkEff ["__default__"%string] (Some (VStr "other"))) main_store).
Proof.
  apply (copyEnable_first_match main_funs "mySwitch" (VStr "__default__") main_store
           [("__module__"%string, VStr "__main__");
            ("case1"%string, VCase (VFun "case1") (VInt 1));
            ("case2"%string, VCase (VFun "case2") (VInt 2))]
           [("__doc__"%string, VNone)] "__default__" "__default__" (VStr "__default__")
           (fun _ => Ret (VStr "other")) (VStr "other")); reflexivity.
Defined.

Lemma copyEnable_no_match_witness :
  copyEnable main_funs "noDefault" (VStr "__default__") main_store = (Ret VNone, main_store).
Proof.
  apply (copyEnable_no_match main_funs "noDefault" (VStr "__default__") main_store
           noDefault_dict); reflexivity.
Defined.

Lemma enable_falls_back_to_copyEnable_witness :
  enable main_funs "mySwitch" (VInt 99) main_store =
  match copyEnable main_funs "mySwitch" (VStr "__default__") main_store with
  | (Ret _, st') => (Ret VNone, st')
  | (Raise x, st') => (Raise x, st')
  end.
Proof.
  apply (enable_falls_back_to_copyEnable main_funs "mySwitch" (VInt 99) main_store
           mySwitch_dict); reflexivity.
Defined.

(** [p] matches [2] but its body raises [NotMatchedError]: the loop goes
    on to [two]. *)
Lemma body_notmatched_falls_through_witness :
  enable_loop edge_funs edge_dict (VInt 2) edge_store =
  enable_loop edge_funs
    [("s"%string, VCase (VFun "signaller") (VInt 3));
     ("x"%string, VCase (VInt 5) VNone);
     ("two"%string, VCase (VFun "case2") (VInt 2));
     ("__default__"%string, VCase (VFun "__default__") (VStr "__default__"))]
    (VInt 2) (apply_eff (mkEff ["passer"%string] None) edge_store).
Proof.
  apply (body_notmatched_falls_through edge_funs
           [("__module__"%string, VStr "__main__"); ("h"%string, VCase (VFun "raiser") (VInt 1))]
           _ "p" "passer" (VInt 2) (VInt 2)
           (fun _ => Raise (NotMatchedError (VInt 0))) (VInt 0) edge_store); reflexivity.
Defined.

Lemma body_error_propagates_witness :
  enable edge_funs "edgeSwitch" (VInt 1) edge_store =
  (Raise (UserError "ValueError"), apply_eff (mkEff ["raiser"%string] None) edge_store).
Proof.
  apply (body_error_propagates edge_funs "edgeSwitch" (VInt 1) edge_store
           [("__module__"%string, VStr "__main__")]
           (skipn 2 edge_dict) "h" "raiser" (VInt 1)
           (fun _ => Raise (UserError "ValueError")) (UserError "ValueError")); reflexivity.
Defined.

(** [Matched.msg] was never assigned: [AttributeError]. *)
Lemma body_raised_matched_reads_msg_witness :
  enable edge_funs "edgeSwitch" (VInt 3) edge_store =
  (Raise AttributeError, apply_eff (mkEff ["signaller"%string] None) edge_store).
Proof.
  apply (body_raised_matched_reads_msg edge_funs "edgeSwitch" (VInt 3) edge_store
           (take 3 edge_dict) (skipn 4 edge_dict) "s" "signaller" (VInt 3)
           (fun _ => Raise (Matched (VInt 7))) (VInt 7)); reflexivity.
Defined.

Lemma enable_leaves_result_in_msg_witness :
  matched_msg (snd (enable main_funs "mySwitch" (VInt 1) main_store)) = Some (VStr "one").
Proof.
  apply (enable_leaves_result_in_msg main_funs "mySwitch" (VInt 1) main_store
           [("__module__"%string, VStr "__main__")] (skipn 2 mySwitch_dict)
           "case1" "case1" (VInt 1) (fun _ => Ret (VStr "one"))); reflexivity.
Defined.

(** [x] holds [_Case(5)]: [enable] with [None] raises [TypeError]. *)
Lemma noncallable_handler_type_error_witness :
  enable edge_funs "edgeSwitch" VNone edge_store = (Raise TypeError, edge_store).
Proof.
  apply (noncallable_handler_type_error edge_funs "edgeSwitch" VNone edge_store
           (take 4 edge_dict) (skipn 5 edge_dict) "x" (VInt 5) VNone); reflexivity.
Defined.

Lemma underscore_case_unusable_witness :
  call_case [VFun "_"] [] = Ret (DObj (VCase (VFun "_") VNone)) /\
  fst (call_value edge_funs (VCase (VFun "_") VNone) [VNone] edge_store) = Raise TypeError.
Proof.
  apply (underscore_case_unusable edge_funs VNone [] edge_store). reflexivity.
Defined.

Lemma enable_runs_only_matching_bodies_witness :
  exists t, trace (snd (enable main_funs "mySwitch" (VInt 99) main_store)) = trace main_store ++ t /\
    Forall (fun fn => exists n, In (n, VCase (VFun fn) (VInt 99)) mySwitch_dict \/
                                In (n, VCase (VFun fn) (VStr "__default__")) mySwitch_dict) t.
Proof.
  apply (enable_runs_only_matching_bodies main_funs "mySwitch" (VInt 99) main_store mySwitch_dict).
  - reflexivity.
  - exact mySwitch_callable.
Defined.
